(** * CourseRepository: the course data layer over three tables

    A shallow embedding of [src/repositories/course_repository.py].  The
    repository keeps courses in three tables of one SQLite connection:
    [Courses (id, name, credits)], [Periods (course_id, period)] and
    [Requirements (course_id, requirement_id)].  Every method of the class
    becomes a function on the state of these tables; the SQL statements the
    methods execute become functions on lists of rows.

    Python [int] values are mathematical integers ([Z]), [str] is [string]
    and [set[int]] is [gset Z].  The sqlite3 driver binds an integer
    parameter only when it is a signed 64-bit value and raises OverflowError
    otherwise, before the statement runs.  The methods commit after their
    statements and the class owns a single connection, so a commit does not
    change what later statements of the connection see and is not part of the
    state.

    [find_by_id], [find_all], [find_requirements], [find_timing], [delete]
    and [delete_all] give what the statements of the method select or leave
    in the tables; [find_by_id_call] and [delete_call] are the calls of the
    two methods that bind a parameter, with the exception the driver raises
    for it.  [create] is the call itself. *)

From stdpp Require Import gmap strings list sorting.

Open Scope Z_scope.

(** ** Entities *)

(** Modelled from the spec: [entities/course.py] is not part of the sources
    at hand.  A Course has an identifier (integer, -1 meaning "not yet
    persisted"), a name, a credit count, a set of periods and a set of
    prerequisite course identifiers; the field names and their order are
    those of the constructor call in [find_by_id]. *)
Record Course : Type := mkCourse {
  name : string;
  credits : Z;
  timing : gset Z;
  requirements : gset Z;
  id : Z
}.

Definition set_id (course : Course) (new_id : Z) : Course :=
  mkCourse (name course) (credits course) (timing course)
           (requirements course) new_id.

(** ** Tables *)

(** Modelled from the spec: the table declarations (the database
    initialisation script) are not part of the sources at hand.  Persistence
    uses three tables: Courses (id, name, credits), Periods (course_id,
    period) and Requirements (course_id, requirement_id).  [create] takes
    [cursor.lastrowid] as the id of the row it has just inserted, so the
    column [id] is the row id of [Courses] (an INTEGER PRIMARY KEY): it is
    unique, and a row inserted without an id receives one from the engine.
    No foreign key is enforced between the tables. *)
Record CoursesRow : Type := mkCoursesRow {
  row_id : Z;
  row_name : string;
  row_credits : Z
}.

Record PeriodsRow : Type := mkPeriodsRow {
  p_course_id : Z;
  period : Z
}.

Record RequirementsRow : Type := mkRequirementsRow {
  r_course_id : Z;
  requirement_id : Z
}.

(** The state of the connection: the rows of each table, in insertion
    order. *)
Record Database : Type := mkDatabase {
  Courses : list CoursesRow;
  Periods : list PeriodsRow;
  Requirements : list RequirementsRow
}.

Definition empty_database : Database := mkDatabase [] [] [].

(** ** Exceptions of the database driver *)

Inductive Error : Type :=
  | IntegrityError
  | OverflowError.

(** What a call ends with: it returns, it raises, or it is an INSERT that
    makes the engine pick a row id at random ([RandomRowid]); no function of
    the tables gives that id, and the call is not followed further. *)
Inductive result (A : Type) : Type :=
  | Ok (a : A)
  | Raise (e : Error)
  | RandomRowid.

Arguments Ok {A} a.
Arguments Raise {A} e.
Arguments RandomRowid {A}.

#[global] Instance result_ret : MRet result := λ A a, Ok a.

#[global] Instance result_bind : MBind result := λ A B f m,
  match m with
  | Ok a => f a
  | Raise e => Raise e
  | RandomRowid => RandomRowid
  end.

(** The integers the driver binds and the tables store: signed 64-bit. *)
Definition int64 (z : Z) : Prop := - 2 ^ 63 ≤ z < 2 ^ 63.

#[global] Instance int64_dec (z : Z) : Decision (int64 z) :=
  ltac:(unfold int64; apply _).

(** The largest row id of a table. *)
Definition max_rowid : Z := 2 ^ 63 - 1.

(** Binding the integer parameters of a statement: "Python int too large to
    convert to SQLite INTEGER" when one of them is not a 64-bit value. *)
Definition bind_parameters (parameters : list Z) : result unit :=
  if decide (Forall int64 parameters) then Ok () else Raise OverflowError.

(** ** SQL statements *)

Definition course_ids (rows : list CoursesRow) : list Z := row_id <$> rows.

(** One more than the largest row id in use, and 1 in an empty table. *)
Definition next_rowid (rows : list CoursesRow) : Z :=
  match course_ids rows with
  | [] => 1
  | i :: ids => foldr Z.max i ids + 1
  end.

(** The row id the engine gives to a row inserted without one: [next_rowid]
    as long as the largest row id in use is below [max_rowid]; once
    [max_rowid] is in use the engine tries row ids at random ([None]). *)
Definition new_rowid (rows : list CoursesRow) : option Z :=
  if decide (Forall (λ i, i < max_rowid) (course_ids rows))
  then Some (next_rowid rows)
  else None.

(** [INSERT INTO Courses (name, credits) VALUES (?, ?)], with the
    [lastrowid] of the cursor afterwards. *)
Definition insert_course (db : Database) (name : string) (credits : Z)
  : result (Z * Database) :=
  bind_parameters [credits];;
  match new_rowid (Courses db) with
  | Some lastrowid =>
      Ok (lastrowid,
          mkDatabase (Courses db ++ [mkCoursesRow lastrowid name credits])
                     (Periods db) (Requirements db))
  | None => RandomRowid
  end.

(** [INSERT INTO Courses (id, name, credits) VALUES (?, ?, ?)]: the
    primary key rejects an id that is in use. *)
Definition insert_course_with_id (db : Database) (id : Z) (name : string)
    (credits : Z) : result Database :=
  bind_parameters [id; credits];;
  if decide (id ∈ course_ids (Courses db)) then Raise IntegrityError
  else Ok (mkDatabase (Courses db ++ [mkCoursesRow id name credits])
                      (Periods db) (Requirements db)).

(** [INSERT INTO Periods (course_id, period) VALUES (?, ?)] *)
Definition insert_period (db : Database) (course_id period : Z)
  : result Database :=
  bind_parameters [course_id; period];;
  Ok (mkDatabase (Courses db) (Periods db ++ [mkPeriodsRow course_id period])
                 (Requirements db)).

(** [INSERT INTO Requirements (course_id, requirement_id) VALUES (?, ?)] *)
Definition insert_requirement (db : Database) (course_id requirement_id : Z)
  : result Database :=
  bind_parameters [course_id; requirement_id];;
  Ok (mkDatabase (Courses db) (Periods db)
                 (Requirements db
                    ++ [mkRequirementsRow course_id requirement_id])).

(** A statement executed once for each element of a list, in order, until
    one raises. *)
Fixpoint execute_each {A : Type} (statement : Database → A → result Database)
    (db : Database) (parameters : list A) : result Database :=
  match parameters with
  | [] => Ok db
  | parameter :: parameters =>
      db ← statement db parameter;
      execute_each statement db parameters
  end.

(** The row [SELECT * FROM Courses WHERE id=?] followed by [fetchone()]
    gives, once the id is bound. *)
Definition select_course (db : Database) (id : Z) : option CoursesRow :=
  head (filter (λ row, row_id row = id) (Courses db)).

(** The rows of [SELECT requirement_id FROM Requirements WHERE course_id=?],
    once the id is bound. *)
Definition select_requirements (db : Database) (id : Z) : list Z :=
  requirement_id <$> filter (λ row, r_course_id row = id) (Requirements db).

(** The rows of [SELECT period FROM Periods WHERE course_id=?], once the id
    is bound. *)
Definition select_periods (db : Database) (id : Z) : list Z :=
  period <$> filter (λ row, p_course_id row = id) (Periods db).

(** [SELECT id FROM Courses ORDER BY id] *)
Definition select_ids_ordered (db : Database) : list Z :=
  merge_sort Z.le (course_ids (Courses db)).

(** ** The methods of CourseRepository *)

Definition find_requirements (db : Database) (id : Z) : gset Z :=
  list_to_set (select_requirements db id).

Definition find_timing (db : Database) (id : Z) : gset Z :=
  list_to_set (select_periods db id).

Definition find_by_id (db : Database) (id : Z) : option Course :=
  match select_course db id with
  | None => None
  | Some course_data =>
      let requirements := find_requirements db id in
      let timing := find_timing db id in
      Some (mkCourse (row_name course_data) (row_credits course_data)
                     timing requirements id)
  end.

(** The call [find_by_id(id)]: its first statement binds the id. *)
Definition find_by_id_call (db : Database) (id : Z) : result (option Course) :=
  bind_parameters [id];;
  Ok (find_by_id db id).

Definition find_all (db : Database) : list (option Course) :=
  find_by_id db <$> select_ids_ordered db.

(** The tables after the three DELETE statements of [delete]; the last one
    binds the same id to both occurrences of [:id]. *)
Definition delete (db : Database) (id : Z) : Database :=
  mkDatabase
    (filter (λ row, row_id row ≠ id) (Courses db))
    (filter (λ row, p_course_id row ≠ id) (Periods db))
    (filter (λ row, ¬ (r_course_id row = id ∨ requirement_id row = id))
            (Requirements db)).

(** The call [delete(id)]: its first statement binds the id. *)
Definition delete_call (db : Database) (id : Z) : result Database :=
  bind_parameters [id];;
  Ok (delete db id).

Definition delete_all (db : Database) : Database := mkDatabase [] [] [].

Definition write_timing (db : Database) (course : Course) : result Database :=
  execute_each (λ db period, insert_period db (id course) period)
               db (elements (timing course)).

Definition write_requirements (db : Database) (course : Course)
  : result Database :=
  execute_each
    (λ db requirement_id, insert_requirement db (id course) requirement_id)
    db (elements (requirements course)).

Definition create (db : Database) (course : Course)
  : result (Course * Database) :=
  '(course, db) ←
    (if decide (id course = -1) then
       '(lastrowid, db) ←
         insert_course db (name course) (credits course);
       Ok (set_id course lastrowid, db)
     else
       found ← find_by_id_call db (id course);
       db ← match found with
            | Some _ => delete_call db (id course)
            | None => Ok db
            end;
       db ← insert_course_with_id db (id course) (name course)
                                  (credits course);
       Ok (course, db));
  db ← write_timing db course;
  db ← write_requirements db course;
  Ok (course, db).

(** ** States the repository can be in *)

(** The database starts with the three tables empty and only the repository
    writes to them: [create], [delete] and [delete_all] are its mutating
    methods. *)
Inductive reachable : Database → Prop :=
  | reachable_empty : reachable empty_database
  | reachable_create db course course' db' :
      reachable db → create db course = Ok (course', db') → reachable db'
  | reachable_delete db id :
      reachable db → reachable (delete db id)
  | reachable_delete_all db :
      reachable db → reachable (delete_all db).

(** Rows of [Periods] and [Requirements] belong to a row of [Courses], and
    the ids of [Courses] are pairwise distinct. *)
Record consistent (db : Database) : Prop := mkConsistent {
  consistent_ids : NoDup (course_ids (Courses db));
  consistent_periods :
    Forall (λ row, p_course_id row ∈ course_ids (Courses db)) (Periods db);
  consistent_requirements :
    Forall (λ row, r_course_id row ∈ course_ids (Courses db))
           (Requirements db)
}.

(** No row of any table is stored under the id [i]. *)
Definition unused (db : Database) (i : Z) : Prop :=
  (i ∉ course_ids (Courses db))
  ∧ filter (λ row, p_course_id row = i) (Periods db) = []
  ∧ filter (λ row, r_course_id row = i) (Requirements db) = [].

(** No row of any table mentions the id [i], as [delete] matches rows. *)
Definition unmatched (db : Database) (i : Z) : Prop :=
  filter (λ row, row_id row = i) (Courses db) = []
  ∧ filter (λ row, p_course_id row = i) (Periods db) = []
  ∧ filter (λ row, r_course_id row = i ∨ requirement_id row = i)
           (Requirements db) = [].

(** The id under which [create] stores a course, and the tables it appends
    the rows of the course to. *)
Definition stored_id (db : Database) (course : Course) : Z :=
  if decide (id course = -1) then next_rowid (Courses db) else id course.

Definition create_base (db : Database) (course : Course) : Database :=
  if decide (id course = -1) then db
  else match find_by_id db (id course) with
       | Some _ => delete db (id course)
       | None => db
       end.

Definition stored_rows (b : Database) (i : Z) (course : Course) : Database :=
  mkDatabase
    (Courses b ++ [mkCoursesRow i (name course) (credits course)])
    (Periods b ++ (mkPeriodsRow i <$> elements (timing course)))
    (Requirements b ++ (mkRequirementsRow i <$> elements (requirements course))).

(** A course the driver can bind: its id, credits, periods and prerequisite
    ids are 64-bit values. *)
Definition storable (course : Course) : Prop :=
  int64 (id course)
  ∧ int64 (credits course)
  ∧ set_Forall int64 (timing course)
  ∧ set_Forall int64 (requirements course).

(** The stored ids are 64-bit values below [max_rowid]: the engine gives the
    next row [next_rowid]. *)
Definition rowid_available (db : Database) : Prop :=
  Forall (λ i, - 2 ^ 63 ≤ i < max_rowid) (course_ids (Courses db)).

(** The integers [create] binds are 64-bit values. *)
Definition bound (db : Database) (course : Course) : Prop :=
  int64 (credits course)
  ∧ (id course ≠ -1 → int64 (id course))
  ∧ Forall (λ p, Forall int64 [stored_id db course; p])
           (elements (timing course))
  ∧ Forall (λ r, Forall int64 [stored_id db course; r])
           (elements (requirements course)).

(** The largest stored id is [i]. *)
Definition largest_id (db : Database) (i : Z) : Prop :=
  i ∈ course_ids (Courses db)
  ∧ Forall (λ j, j ≤ i) (course_ids (Courses db)).

(** ** Views on what the methods do to other courses *)

(** A course as it reloads once the id [i] has left its prerequisites. *)
Definition without_requirement (i : Z) (course : Course) : Course :=
  mkCourse (name course) (credits course) (timing course)
           (requirements course ∖ {[i]}) (id course).

(** [delete] called on each id of a list in turn. *)
Definition delete_each (db : Database) (ids : list Z) : Database :=
  foldl delete db ids.

(** ** The course form of CreateCourseView

    The variables of the form in [src/ui/create_course_view.py]: the text of
    the name entry, the number of the credits spinbox and the four period
    check buttons ([__name_variable], [__credits_variable], [__timing]).
    Widgets and layout are not part of the state. *)
Record CourseForm : Type := mkCourseForm {
  name_variable : string;
  credits_variable : Z;
  timing_variables : list bool
}.

(** The variables as the constructor sets them up: an empty name, 0 credits
    and four check buttons that are off. *)
Definition new_form : CourseForm := mkCourseForm "" 0 (replicate 4 false).

(** What an event handler of the form ends with: it returns, or an
    IndexError leaves it. *)
Inductive outcome (A : Type) : Type :=
  | Returns (a : A)
  | IndexError.

Arguments Returns {A} a.
Arguments IndexError {A}.

(** The position [l[i]] refers to in a Python list: indices from 0, negative
    ones counting from the end, anything else out of range. *)
Definition list_index {A : Type} (l : list A) (i : Z) : option nat :=
  let n := Z.of_nat (length l) in
  if decide (0 ≤ i < n) then Some (Z.to_nat i)
  else if decide (- n ≤ i < 0) then Some (Z.to_nat (i + n))
  else None.

(** [self.__timing[period - 1].set(True)] *)
Definition set_period (variables : list bool) (period : Z)
  : outcome (list bool) :=
  match list_index variables (period - 1) with
  | Some k => Returns (<[k := true]> variables)
  | None => IndexError
  end.

Fixpoint set_periods (variables : list bool) (periods : list Z)
  : outcome (list bool) :=
  match periods with
  | [] => Returns variables
  | period :: periods =>
      match set_period variables period with
      | Returns variables => set_periods variables periods
      | IndexError => IndexError
      end
  end.

Definition clear_period_selection (form : CourseForm) : CourseForm :=
  mkCourseForm (name_variable form) (credits_variable form)
               ((λ _, false) <$> timing_variables form).

(** [__fill_course_data]; [course] is what [planner_service.get_course]
    returned for the id selected in the course list. *)
Definition fill_course_data (form : CourseForm) (course : option Course)
  : outcome CourseForm :=
  match course with
  | None => Returns form
  | Some course =>
      let form :=
        mkCourseForm (name course) (credits course) (timing_variables form) in
      let form := clear_period_selection form in
      match set_periods (timing_variables form) (elements (timing course)) with
      | Returns variables =>
          Returns (mkCourseForm (name_variable form) (credits_variable form)
                                variables)
      | IndexError => IndexError
      end
  end.

(** ** Sample data *)

Definition course_algebra : Course := mkCourse "Algebra" 5 {[1]} ∅ (-1).

Definition course_analysis : Course := mkCourse "Analysis" 10 {[2]} {[1]} (-1).

(** The tables after [create course_algebra] and [create course_analysis] on
    the empty database: Analysis (id 2) requires Algebra (id 1). *)
Definition db_two_courses : Database :=
  mkDatabase
    [mkCoursesRow 1 "Algebra" 5; mkCoursesRow 2 "Analysis" 10]
    [mkPeriodsRow 1 1; mkPeriodsRow 2 2]
    [mkRequirementsRow 2 1].

(** An edit of Algebra: same id, new name and period. *)
Definition course_algebra_edited : Course :=
  mkCourse "Linear algebra" 5 {[3]} ∅ 1.

(** A course saved under an explicit negative id. *)
Definition course_minus_two : Course := mkCourse "Logic" 5 ∅ ∅ (-2).

Definition db_minus_two : Database :=
  mkDatabase [mkCoursesRow (-2) "Logic" 5] [] [].

(** The tables after [create course_minus_two] and [create course_algebra]
    on the empty database: the row id after -2 is -1. *)
Definition db_minus_one : Database :=
  mkDatabase
    [mkCoursesRow (-2) "Logic" 5; mkCoursesRow (-1) "Algebra" 5]
    [mkPeriodsRow (-1) 1]
    [].

(** An edit of Algebra as stored in [db_minus_one], under its id -1. *)
Definition course_sentinel_edited : Course :=
  mkCourse "Linear algebra" 5 {[3]} ∅ (-1).

(** A course whose only prerequisite, 42, is the id of no stored course. *)
Definition course_dangling : Course := mkCourse "Topology" 5 {[4]} {[42]} (-1).

(** A course saved under an explicit id that is not in use. *)
Definition course_seven : Course := mkCourse "Geometry" 5 {[1]} {[2]} 7.

(** Courses with an integer outside the 64-bit range: the id, and a
    period. *)
Definition course_huge_id : Course := mkCourse "Algebra" 5 {[1]} ∅ (2 ^ 63).

Definition course_huge_period : Course :=
  mkCourse "Algebra" 5 {[2 ^ 63]} {[9]} 5.

(** A course offered in period 0, and one offered in period 5. *)
Definition course_period_zero : Course := mkCourse "Seminar" 2 {[0; 2]} ∅ 3.

Definition course_period_five : Course := mkCourse "Thesis" 30 {[1; 5]} ∅ 4.

(** ** Lists of rows *)

Section filters.
Context {A : Type} (P : A → Prop) `{!∀ x, Decision (P x)}.

Lemma filter_none (l : list A) : Forall (λ x, ¬ P x) l → filter P l = [].
Proof.
  induction 1 as [|x l Hx _ IH]; [done|].
  by rewrite filter_cons_False.
Qed.

Lemma filter_every (l : list A) : Forall P l → filter P l = l.
Proof.
  induction 1 as [|x l Hx _ IH]; [done|].
  rewrite filter_cons_True by done. by f_equal.
Qed.

Lemma filter_none_inv (l : list A) : filter P l = [] → Forall (λ x, ¬ P x) l.
Proof.
  intros Hnil. apply Forall_forall. intros x Hx HP.
  by apply (filter_nil_not_elem_of P l x).
Qed.

Lemma filter_complement (l : list A) :
  filter P (filter (λ x, ¬ P x) l) = [].
Proof.
  apply filter_none, Forall_forall.
  intros x Hx%list_elem_of_filter. tauto.
Qed.
End filters.

Lemma course_ids_app rows1 rows2 :
  course_ids (rows1 ++ rows2) = course_ids rows1 ++ course_ids rows2.
Proof. apply fmap_app. Qed.

Lemma elem_of_course_ids rows i :
  i ∈ course_ids rows ↔ filter (λ row, row_id row = i) rows ≠ [].
Proof.
  unfold course_ids. induction rows as [|row rows IH]; simpl.
  - rewrite elem_of_nil. naive_solver.
  - rewrite elem_of_cons, filter_cons. case_decide as Hrow.
    + split; [done|]. intros _. by left.
    + rewrite <- IH. split; [|by right].
      intros [->|Hi]; [by destruct Hrow|done].
Qed.

Lemma not_elem_of_course_ids rows i :
  i ∉ course_ids rows ↔ filter (λ row, row_id row = i) rows = [].
Proof.
  rewrite elem_of_course_ids.
  destruct (filter _ rows); naive_solver.
Qed.

Lemma course_ids_filter_ne rows i :
  i ∉ course_ids (filter (λ row, row_id row ≠ i) rows).
Proof.
  apply not_elem_of_course_ids.
  apply (filter_complement (λ row, row_id row = i)).
Qed.

Lemma elem_of_course_ids_filter rows i j :
  j ∈ course_ids rows → j ≠ i →
  j ∈ course_ids (filter (λ row, row_id row ≠ i) rows).
Proof.
  unfold course_ids.
  intros (row & -> & Hrow)%list_elem_of_fmap Hne.
  apply list_elem_of_fmap_2, list_elem_of_filter. done.
Qed.

Lemma course_ids_filter_sub rows (P : CoursesRow → Prop)
    `{!∀ row, Decision (P row)} j :
  j ∈ course_ids (filter P rows) → j ∈ course_ids rows.
Proof.
  unfold course_ids.
  intros (row & -> & [_ Hrow]%list_elem_of_filter)%list_elem_of_fmap.
  by apply list_elem_of_fmap_2.
Qed.

Lemma NoDup_course_ids_filter rows (P : CoursesRow → Prop)
    `{!∀ row, Decision (P row)} :
  NoDup (course_ids rows) → NoDup (course_ids (filter P rows)).
Proof.
  unfold course_ids. induction rows as [|row rows IH]; simpl; [done|].
  rewrite NoDup_cons. intros [Hrow Hrows].
  rewrite filter_cons. case_decide; simpl; [|auto].
  apply NoDup_cons. split; [|auto].
  intros Hin. apply Hrow. by apply (course_ids_filter_sub rows P).
Qed.

(** ** The row id given by the engine *)

Lemma foldr_max_elem (i : Z) (ids : list Z) : foldr Z.max i ids ∈ i :: ids.
Proof.
  induction ids as [|j ids IH]; simpl; [by left|].
  destruct (Z.max_spec j (foldr Z.max i ids)) as [[_ ->]|[_ ->]].
  - apply elem_of_cons in IH as [->|IH]; [by left|]. by do 2 right.
  - right. by left.
Qed.

Lemma foldr_max_ge (i : Z) (ids : list Z) (j : Z) :
  j ∈ i :: ids → j ≤ foldr Z.max i ids.
Proof.
  induction ids as [|k ids IH]; simpl.
  - intros ->%list_elem_of_singleton. lia.
  - rewrite !elem_of_cons. intros [->|[->|Hj]].
    + etrans; [apply IH; by left|]. lia.
    + lia.
    + etrans; [apply IH; by right|]. lia.
Qed.

Lemma next_rowid_gt rows i : i ∈ course_ids rows → i < next_rowid rows.
Proof.
  unfold next_rowid. destruct (course_ids rows) as [|j ids].
  - by intros ?%elem_of_nil.
  - intros Hi%foldr_max_ge. lia.
Qed.

Lemma next_rowid_fresh rows : next_rowid rows ∉ course_ids rows.
Proof. intros Hin%next_rowid_gt. lia. Qed.

Lemma next_rowid_largest rows i :
  i ∈ course_ids rows → Forall (λ j, j ≤ i) (course_ids rows) →
  next_rowid rows = i + 1.
Proof.
  unfold next_rowid. destruct (course_ids rows) as [|j ids].
  - by intros ?%elem_of_nil.
  - intros Hi%foldr_max_ge Hall. f_equal. apply Z.le_antisymm; [|done].
    by apply (proj1 (Forall_forall _ _) Hall), foldr_max_elem.
Qed.

Lemma next_rowid_sentinel rows :
  next_rowid rows = -1 ↔
  -2 ∈ course_ids rows ∧ Forall (λ j, j ≤ -2) (course_ids rows).
Proof.
  split.
  - unfold next_rowid. destruct (course_ids rows) as [|j ids] eqn:Hids; [done|].
    intros Heq. assert (foldr Z.max j ids = -2) as Hmax by lia. split.
    + rewrite <- Hmax. apply foldr_max_elem.
    + apply Forall_forall. intros k Hk%foldr_max_ge. lia.
  - intros [Hin Hall]. by rewrite (next_rowid_largest rows (-2)).
Qed.

Lemma next_rowid_int64 rows :
  Forall (λ i, - 2 ^ 63 ≤ i < max_rowid) (course_ids rows) →
  int64 (next_rowid rows).
Proof.
  unfold next_rowid, int64, max_rowid.
  destruct (course_ids rows) as [|j ids]; [lia|].
  intros Hall.
  pose proof (proj1 (Forall_forall _ _) Hall _ (foldr_max_elem j ids)).
  simpl in *. lia.
Qed.

Lemma new_rowid_available rows :
  Forall (λ i, - 2 ^ 63 ≤ i < max_rowid) (course_ids rows) →
  new_rowid rows = Some (next_rowid rows).
Proof.
  intros Hall. unfold new_rowid. rewrite decide_True; [done|].
  eapply Forall_impl; [exact Hall|]. simpl. lia.
Qed.

Lemma new_rowid_Some rows r :
  new_rowid rows = Some r →
  r = next_rowid rows ∧ Forall (λ i, i < max_rowid) (course_ids rows).
Proof. unfold new_rowid. case_decide; [|done]. by intros [= <-]. Qed.

(** ** What the driver binds *)

Lemma bind_parameters_Ok (parameters : list Z) :
  Forall int64 parameters → bind_parameters parameters = Ok ().
Proof. intros Hall. unfold bind_parameters. by rewrite decide_True. Qed.

Lemma int64_pair (i j : Z) : int64 i → int64 j → Forall int64 [i; j].
Proof. intros Hi Hj. by repeat apply Forall_cons_2. Qed.

(** ** What the methods write *)

Lemma write_timing_rows db course :
  write_timing db course =
  if decide (Forall (λ p, Forall int64 [id course; p])
                    (elements (timing course)))
  then Ok (mkDatabase
             (Courses db)
             (Periods db
                ++ (mkPeriodsRow (id course) <$> elements (timing course)))
             (Requirements db))
  else Raise OverflowError.
Proof.
  unfold write_timing. generalize (elements (timing course)). intros periods.
  revert db. induction periods as [|p periods IH]; intros db.
  - rewrite decide_True by constructor. rewrite app_nil_r. by destruct db.
  - cbn [execute_each]. unfold insert_period, bind_parameters.
    destruct (decide (Forall int64 [id course; p])) as [Hp|Hp].
    + cbn [mbind result_bind]. rewrite IH. cbn [Courses Periods Requirements].
      destruct (decide (Forall _ periods)) as [Hall|Hall].
      * rewrite decide_True by (by constructor).
        by rewrite <- app_assoc.
      * rewrite decide_False; [done|]. by intros [_ ?]%Forall_cons.
    + cbn [mbind result_bind].
      rewrite decide_False; [done|]. by intros [? _]%Forall_cons.
Qed.

Lemma write_requirements_rows db course :
  write_requirements db course =
  if decide (Forall (λ r, Forall int64 [id course; r])
                    (elements (requirements course)))
  then Ok (mkDatabase
             (Courses db) (Periods db)
             (Requirements db
                ++ (mkRequirementsRow (id course)
                      <$> elements (requirements course))))
  else Raise OverflowError.
Proof.
  unfold write_requirements. generalize (elements (requirements course)).
  intros ids. revert db. induction ids as [|r ids IH]; intros db.
  - rewrite decide_True by constructor. rewrite app_nil_r. by destruct db.
  - cbn [execute_each]. unfold insert_requirement, bind_parameters.
    destruct (decide (Forall int64 [id course; r])) as [Hr|Hr].
    + cbn [mbind result_bind]. rewrite IH. cbn [Courses Periods Requirements].
      destruct (decide (Forall _ ids)) as [Hall|Hall].
      * rewrite decide_True by (by constructor).
        by rewrite <- app_assoc.
      * rewrite decide_False; [done|]. by intros [_ ?]%Forall_cons.
    + cbn [mbind result_bind].
      rewrite decide_False; [done|]. by intros [? _]%Forall_cons.
Qed.

Lemma set_id_same course : set_id course (id course) = course.
Proof. by destruct course. Qed.

Lemma find_by_id_None db i :
  find_by_id db i = None ↔ i ∉ course_ids (Courses db).
Proof.
  rewrite not_elem_of_course_ids. unfold find_by_id, select_course.
  destruct (filter _ (Courses db)); simpl; split; done.
Qed.

Lemma find_by_id_Some db i :
  i ∈ course_ids (Courses db) → ∃ course, find_by_id db i = Some course.
Proof.
  intros Hin. destruct (find_by_id db i) as [course|] eqn:Hfind; [eauto|].
  by apply find_by_id_None in Hfind.
Qed.

Lemma stored_id_fresh db course :
  stored_id db course ∉ course_ids (Courses (create_base db course)).
Proof.
  unfold stored_id, create_base. case_decide.
  - apply next_rowid_fresh.
  - destruct (find_by_id db (id course)) eqn:Hfind.
    + apply course_ids_filter_ne.
    + by apply find_by_id_None.
Qed.

(** The three ways [create] ends: it returns the course under [stored_id]
    with its rows after those of [create_base]; the driver refuses one of
    the integers; or the row id has to be picked at random. *)
Lemma create_cases db course :
  (create db course =
     Ok (set_id course (stored_id db course),
         stored_rows (create_base db course) (stored_id db course) course)
   ∧ bound db course
   ∧ (id course = -1 → Forall (λ i, i < max_rowid) (course_ids (Courses db))))
  ∨ (create db course = Raise OverflowError ∧ ¬ bound db course)
  ∨ (create db course = RandomRowid
     ∧ id course = -1
     ∧ ¬ Forall (λ i, i < max_rowid) (course_ids (Courses db))).
Proof.
  pose proof (stored_id_fresh db course) as Hfresh.
  unfold bound, create, stored_id, create_base, stored_rows in *.
  destruct (decide (id course = -1)) as [Hnew|Hold].
  - unfold insert_course, bind_parameters, new_rowid.
    destruct (decide (Forall int64 [credits course])) as [Hc|Hc];
      cbn [mbind result_bind].
    2:{ right. left. split; [done|]. intros (Hc' & _). apply Hc.
        by apply Forall_singleton. }
    rewrite Forall_singleton in Hc.
    destruct (decide (Forall _ (course_ids (Courses db)))) as [Hmax|Hmax];
      cbn [mbind result_bind].
    2:{ right. right. done. }
    rewrite write_timing_rows. cbn [id set_id timing requirements].
    destruct (decide (Forall _ (elements (timing course)))) as [Ht|Ht];
      cbn [mbind result_bind].
    2:{ right. left. split; [done|]. tauto. }
    rewrite write_requirements_rows.
    cbn [id set_id timing requirements Courses Periods Requirements].
    destruct (decide (Forall _ (elements (requirements course)))) as [Hr|Hr];
      cbn [mbind result_bind].
    2:{ right. left. split; [done|]. tauto. }
    left. split; [done|]. split; [|done].
    split; [done|]. split; [by intros ?|]. done.
  - unfold find_by_id_call, delete_call, insert_course_with_id,
      bind_parameters.
    destruct (decide (Forall int64 [id course])) as [Hi|Hi];
      cbn [mbind result_bind].
    2:{ right. left. split; [done|]. intros (_ & Hi' & _). apply Hi.
        apply Forall_singleton. by apply Hi'. }
    rewrite Forall_singleton in Hi.
    destruct (find_by_id db (id course)) as [found|];
      cbn [mbind result_bind].
    all: destruct (decide (Forall int64 [id course; credits course]))
           as [Hc|Hc]; cbn [mbind result_bind];
         [|right; left; split; [done|]; intros (Hc' & _); apply Hc;
           by apply int64_pair].
    all: rewrite !Forall_cons in Hc.
    all: rewrite (decide_False (P := id course ∈ _)) by done;
         cbn [mbind result_bind].
    all: rewrite write_timing_rows;
         destruct (decide (Forall _ (elements (timing course)))) as [Ht|Ht];
         cbn [mbind result_bind]; [|right; left; split; [done|]; tauto].
    all: rewrite write_requirements_rows; cbn [Courses Periods Requirements];
         destruct (decide (Forall _ (elements (requirements course))))
           as [Hr|Hr];
         cbn [mbind result_bind]; [|right; left; split; [done|]; tauto].
    all: left; rewrite set_id_same; split; [done|]; split; [|done];
         split; [tauto|]; split; [by intros ?|]; done.
Qed.

Lemma create_Ok_inv db course course' db' :
  create db course = Ok (course', db') →
  course' = set_id course (stored_id db course)
  ∧ db' = stored_rows (create_base db course) (stored_id db course) course
  ∧ bound db course
  ∧ (id course = -1 → Forall (λ i, i < max_rowid) (course_ids (Courses db))).
Proof.
  destruct (create_cases db course) as [(-> & ? & ?)|[[-> _]|(-> & _)]];
    [|done..].
  by intros [= <- <-].
Qed.

Lemma storable_bound db course :
  storable course → (id course = -1 → rowid_available db) → bound db course.
Proof.
  intros (Hid & Hc & Ht & Hr) Hrow.
  assert (int64 (stored_id db course)) as Hstored.
  { unfold stored_id. case_decide; [|done].
    by apply next_rowid_int64, Hrow. }
  split; [done|]. split; [done|]. split.
  - apply Forall_forall. intros p Hp%elem_of_elements.
    apply int64_pair; [done|by apply Ht].
  - apply Forall_forall. intros r Hr'%elem_of_elements.
    apply int64_pair; [done|by apply Hr].
Qed.

Lemma bound_storable db course : bound db course → storable course.
Proof.
  intros (Hc & Hid & Ht & Hr). split; [|split; [done|split]].
  - destruct (decide (id course = -1)) as [->|Hne]; [|by apply Hid].
    unfold int64. lia.
  - intros p Hp%elem_of_elements.
    pose proof (proj1 (Forall_forall _ _) Ht p Hp) as Hp'.
    rewrite !Forall_cons in Hp'. tauto.
  - intros r Hr'%elem_of_elements.
    pose proof (proj1 (Forall_forall _ _) Hr r Hr') as Hp'.
    rewrite !Forall_cons in Hp'. tauto.
Qed.

Lemma create_bound_returns db course :
  bound db course →
  (id course = -1 → Forall (λ i, i < max_rowid) (course_ids (Courses db))) →
  create db course =
  Ok (set_id course (stored_id db course),
      stored_rows (create_base db course) (stored_id db course) course).
Proof.
  intros Hbound Hrow.
  destruct (create_cases db course) as [(-> & ? & ?)|[[_ Hb]|(_ & Hid & Hmax)]].
  - done.
  - by destruct Hb.
  - destruct Hmax. by apply Hrow.
Qed.

(** [create] returns for a course the driver can bind, unless the row id
    has to be picked at random. *)
Lemma create_returns db course :
  storable course → (id course = -1 → rowid_available db) →
  create db course =
  Ok (set_id course (stored_id db course),
      stored_rows (create_base db course) (stored_id db course) course).
Proof.
  intros Hcourse Hrow. apply create_bound_returns.
  - by apply storable_bound.
  - intros Hid. eapply Forall_impl; [exact (Hrow Hid)|]. simpl. lia.
Qed.

Lemma delete_unmatched db i : unmatched (delete db i) i.
Proof.
  repeat split; simpl.
  - apply (filter_complement (λ row, row_id row = i)).
  - apply (filter_complement (λ row, p_course_id row = i)).
  - apply (filter_complement
             (λ row, r_course_id row = i ∨ requirement_id row = i)).
Qed.

Lemma unmatched_unused db i : unmatched db i → unused db i.
Proof.
  intros (Hc & Hp & Hr). repeat split; [|done|].
  - by apply not_elem_of_course_ids.
  - apply filter_none. apply filter_none_inv in Hr.
    eapply Forall_impl; [exact Hr|]. simpl. tauto.
Qed.

Lemma delete_unused db i : unused (delete db i) i.
Proof. apply unmatched_unused, delete_unmatched. Qed.

Lemma consistent_unused db i :
  consistent db → i ∉ course_ids (Courses db) → unused db i.
Proof.
  intros [_ Hp Hr] Hi. repeat split; [done| |].
  - apply filter_none. eapply Forall_impl; [exact Hp|].
    simpl. intros row Hrow Heq. by rewrite Heq in Hrow.
  - apply filter_none. eapply Forall_impl; [exact Hr|].
    simpl. intros row Hrow Heq. by rewrite Heq in Hrow.
Qed.

(** The rows stored under an id that was unused are those of the course. *)
Lemma stored_rows_courses b i course :
  unused b i →
  filter (λ row, row_id row = i) (Courses (stored_rows b i course)) =
  [mkCoursesRow i (name course) (credits course)].
Proof.
  intros (Hc & _ & _). simpl. rewrite filter_app.
  apply not_elem_of_course_ids in Hc. rewrite Hc. simpl.
  by rewrite filter_cons_True.
Qed.

Lemma stored_rows_periods b i course :
  unused b i →
  filter (λ row, p_course_id row = i) (Periods (stored_rows b i course)) =
  mkPeriodsRow i <$> elements (timing course).
Proof.
  intros (_ & Hp & _). simpl. rewrite filter_app, Hp. simpl.
  apply filter_every, Forall_fmap, Forall_forall. done.
Qed.

Lemma stored_rows_requirements b i course :
  unused b i →
  filter (λ row, r_course_id row = i) (Requirements (stored_rows b i course)) =
  mkRequirementsRow i <$> elements (requirements course).
Proof.
  intros (_ & _ & Hr). simpl. rewrite filter_app, Hr. simpl.
  apply filter_every, Forall_fmap, Forall_forall. done.
Qed.

Lemma stored_rows_find_by_id b i course :
  unused b i →
  find_by_id (stored_rows b i course) i = Some (set_id course i).
Proof.
  intros Hb. unfold find_by_id, select_course, find_timing, find_requirements,
    select_periods, select_requirements.
  rewrite stored_rows_courses, stored_rows_periods,
    stored_rows_requirements by done.
  simpl. rewrite <- !list_fmap_compose.
  rewrite !list_fmap_id, !list_to_set_elements_L. done.
Qed.

(** ** The invariant of the tables *)

Lemma consistent_empty : consistent empty_database.
Proof. split; simpl; [apply NoDup_nil_2|done|done]. Qed.

Lemma consistent_delete db i : consistent db → consistent (delete db i).
Proof.
  intros [Hids Hp Hr]. split; simpl.
  - by apply NoDup_course_ids_filter.
  - apply Forall_forall. intros row [Hne Hrow]%list_elem_of_filter.
    apply elem_of_course_ids_filter; [|done].
    by apply (proj1 (Forall_forall _ _) Hp).
  - apply Forall_forall. intros row [Hne Hrow]%list_elem_of_filter.
    apply elem_of_course_ids_filter; [|tauto].
    by apply (proj1 (Forall_forall _ _) Hr).
Qed.

Lemma consistent_stored_rows b i course :
  consistent b → i ∉ course_ids (Courses b) →
  consistent (stored_rows b i course).
Proof.
  intros [Hids Hp Hr] Hi. split; simpl; rewrite course_ids_app; simpl.
  - apply NoDup_app. split; [done|]. split; [|apply NoDup_singleton].
    intros j Hj ->%list_elem_of_singleton. done.
  - apply Forall_app. split.
    + eapply Forall_impl; [exact Hp|]. simpl. intros row Hrow.
      apply elem_of_app. by left.
    + apply Forall_fmap, Forall_forall. intros p _. simpl.
      apply elem_of_app. right. by left.
  - apply Forall_app. split.
    + eapply Forall_impl; [exact Hr|]. simpl. intros row Hrow.
      apply elem_of_app. by left.
    + apply Forall_fmap, Forall_forall. intros r _. simpl.
      apply elem_of_app. right. by left.
Qed.

Lemma consistent_create_base db course :
  consistent db → consistent (create_base db course).
Proof.
  intros Hdb. unfold create_base. case_decide; [done|].
  destruct (find_by_id db (id course)); [|done].
  by apply consistent_delete.
Qed.

Lemma reachable_consistent db : reachable db → consistent db.
Proof.
  induction 1 as [|db course course' db' _ IH Hcreate|db i _ IH|db _ IH].
  - apply consistent_empty.
  - apply create_Ok_inv in Hcreate as (_ & -> & _).
    apply consistent_stored_rows; [|apply stored_id_fresh].
    by apply consistent_create_base.
  - by apply consistent_delete.
  - apply consistent_empty.
Qed.

Lemma create_base_unused db course :
  consistent db → unused (create_base db course) (stored_id db course).
Proof.
  intros Hdb. apply consistent_unused; [|apply stored_id_fresh].
  by apply consistent_create_base.
Qed.

Lemma create_base_existing db course :
  id course ≠ -1 → id course ∈ course_ids (Courses db) →
  stored_id db course = id course
  ∧ create_base db course = delete db (id course).
Proof.
  intros Hne Hin. unfold stored_id, create_base.
  rewrite !decide_False by done. split; [done|].
  by destruct (find_by_id_Some db (id course) Hin) as [found ->].
Qed.

Lemma create_base_absent db course :
  id course ≠ -1 → id course ∉ course_ids (Courses db) →
  stored_id db course = id course ∧ create_base db course = db.
Proof.
  intros Hne Hin. unfold stored_id, create_base.
  rewrite !decide_False by done. split; [done|].
  apply find_by_id_None in Hin. by rewrite Hin.
Qed.

Lemma create_base_unsaved db course :
  id course = -1 →
  stored_id db course = next_rowid (Courses db) ∧ create_base db course = db.
Proof.
  intros Hnew. unfold stored_id, create_base.
  by rewrite !decide_True by done.
Qed.

Lemma create_base_cases db course :
  create_base db course = db
  ∨ create_base db course = delete db (stored_id db course).
Proof.
  unfold create_base, stored_id. case_decide; [by left|].
  destruct (find_by_id db (id course)); [by right|by left].
Qed.

(** The stored ids are 64-bit values in every state the repository can be
    in. *)
Lemma reachable_int64 db : reachable db → Forall int64 (course_ids (Courses db)).
Proof.
  induction 1 as [|db course course' db' _ IH Hcreate|db i _ IH|db _ IH].
  - constructor.
  - apply create_Ok_inv in Hcreate as (_ & -> & (_ & Hid & _) & Hmax).
    simpl. rewrite course_ids_app. apply Forall_app. split.
    + destruct (create_base_cases db course) as [->| ->]; [done|].
      apply Forall_forall. intros j Hj%course_ids_filter_sub.
      by apply (proj1 (Forall_forall _ _) IH).
    + apply Forall_singleton. unfold stored_id. case_decide; [|by apply Hid].
      apply next_rowid_int64, Forall_forall. intros j Hj.
      pose proof (proj1 (Forall_forall _ _) IH j Hj) as Hj1.
      pose proof (proj1 (Forall_forall _ _) (Hmax ltac:(done)) j Hj) as Hj2.
      unfold int64 in Hj1. simpl in Hj2. lia.
  - apply Forall_forall. intros j Hj%course_ids_filter_sub.
    by apply (proj1 (Forall_forall _ _) IH).
  - constructor.
Qed.

Lemma reachable_rowid_available db :
  reachable db → max_rowid ∉ course_ids (Courses db) → rowid_available db.
Proof.
  intros Hdb%reachable_int64 Hmax. apply Forall_forall. intros j Hj.
  pose proof (proj1 (Forall_forall _ _) Hdb j Hj) as Hj1.
  assert (j ≠ max_rowid) by (by intros ->).
  unfold int64, max_rowid in *. lia.
Qed.

Lemma create_Ok_id_int64 db course course' db' :
  reachable db → create db course = Ok (course', db') → int64 (id course').
Proof.
  intros Hdb Hcreate.
  assert (reachable db') as Hdb' by (by eapply reachable_create).
  apply reachable_int64 in Hdb'.
  apply create_Ok_inv in Hcreate as (-> & -> & _).
  simpl in *. rewrite course_ids_app in Hdb'.
  apply Forall_app in Hdb' as [_ Hid]. unfold course_ids in Hid.
  simpl in Hid. by rewrite Forall_singleton in Hid.
Qed.

Lemma find_by_id_call_Ok db i :
  int64 i → find_by_id_call db i = Ok (find_by_id db i).
Proof.
  intros Hi. unfold find_by_id_call.
  by rewrite bind_parameters_Ok by (by apply Forall_singleton).
Qed.

Lemma delete_call_Ok db i : int64 i → delete_call db i = Ok (delete db i).
Proof.
  intros Hi. unfold delete_call.
  by rewrite bind_parameters_Ok by (by apply Forall_singleton).
Qed.

(** ** The sample states are reachable *)

Lemma reachable_db_two_courses : reachable db_two_courses.
Proof.
  eapply (reachable_create _ course_analysis).
  - eapply (reachable_create _ course_algebra); [apply reachable_empty|].
    vm_compute; reflexivity.
  - vm_compute; reflexivity.
Qed.

Lemma reachable_db_minus_two : reachable db_minus_two.
Proof.
  eapply (reachable_create _ course_minus_two); [apply reachable_empty|].
  vm_compute; reflexivity.
Qed.

Lemma reachable_db_minus_one : reachable db_minus_one.
Proof.
  eapply (reachable_create _ course_algebra);
    [apply reachable_db_minus_two|].
  vm_compute; reflexivity.
Qed.

Ltac solve_storable :=
  split; [unfold int64; simpl; lia|];
  split; [unfold int64; simpl; lia|];
  split; intros p Hp; simpl in Hp; set_unfold in Hp; unfold int64; lia.

Lemma storable_course_algebra : storable course_algebra.
Proof. solve_storable. Qed.

Lemma storable_course_algebra_edited : storable course_algebra_edited.
Proof. solve_storable. Qed.

Lemma storable_course_seven : storable course_seven.
Proof. solve_storable. Qed.

Lemma storable_course_dangling : storable course_dangling.
Proof. solve_storable. Qed.

Lemma rowid_available_db_two_courses : rowid_available db_two_courses.
Proof. repeat (constructor; [unfold max_rowid; simpl; lia|]). constructor. Qed.

(** ** Saving and reloading *)

(** C1.  In every state the repository can be in, whenever [create]
    returns a course (with its database id), [find_by_id] called on that id
    returns a course with the same name, credits, period set and requirement
    set as the course that was saved.  [create] does return when the integers
    of the course are 64-bit values and, for a course without id, the largest
    row id is not in use. *)
Theorem create_find_by_id_roundtrip db course :
  reachable db →
  (∀ course' db',
     create db course = Ok (course', db') →
     ∃ found,
       find_by_id_call db' (id course') = Ok (Some found)
       ∧ name found = name course
       ∧ credits found = credits course
       ∧ timing found = timing course
       ∧ requirements found = requirements course)
  ∧ (storable course →
     (id course = -1 → max_rowid ∉ course_ids (Courses db)) →
     ∃ course' db', create db course = Ok (course', db')).
Proof.
  intros Hdb. split.
  - intros course' db' Hcreate.
    pose proof (create_Ok_id_int64 db course course' db' Hdb Hcreate) as Hid.
    apply create_Ok_inv in Hcreate as (-> & -> & _).
    apply reachable_consistent in Hdb.
    eexists. split.
    { rewrite find_by_id_call_Ok by done. simpl. f_equal.
      by apply stored_rows_find_by_id, create_base_unused. }
    done.
  - intros Hcourse Hrow. eexists _, _. apply create_returns; [done|].
    intros Hnew. by apply reachable_rowid_available, Hrow.
Qed.

Lemma create_find_by_id_roundtrip_witness :
  ∃ course' db' found,
    create db_two_courses course_algebra_edited = Ok (course', db')
    ∧ find_by_id_call db' (id course') = Ok (Some found)
    ∧ name found = name course_algebra_edited
    ∧ credits found = credits course_algebra_edited
    ∧ timing found = timing course_algebra_edited
    ∧ requirements found = requirements course_algebra_edited.
Proof.
  destruct (create_find_by_id_roundtrip db_two_courses course_algebra_edited
              reachable_db_two_courses) as [Hreload Hreturns].
  destruct Hreturns as (course' & db' & Hcreate).
  - apply storable_course_algebra_edited.
  - simpl. lia.
  - destruct (Hreload course' db' Hcreate) as (found & Hfound).
    by exists course', db', found.
Defined.

(** ** Deleting *)

(** C2.  After [delete db i] no row of [Courses] has id [i], no row of
    [Periods] has course_id [i] and no row of [Requirements] has course_id
    [i]. *)
Theorem delete_removes_rows db i :
  filter (λ row, row_id row = i) (Courses (delete db i)) = []
  ∧ filter (λ row, p_course_id row = i) (Periods (delete db i)) = []
  ∧ filter (λ row, r_course_id row = i) (Requirements (delete db i)) = [].
Proof.
  destruct (delete_unused db i) as (Hc & Hp & Hr).
  by apply not_elem_of_course_ids in Hc.
Qed.

(** ** Updating a stored course *)

(** C4, as stated, fails for the id -1: a stored course can have id -1 (the
    row id the database gives after -2), and [create] on a course with id -1
    does not replace it; it appends a new course under a new id and keeps the
    rows stored under -1. *)
Lemma create_sentinel_id_not_replaced :
  reachable db_minus_one
  ∧ id course_sentinel_edited ∈ course_ids (Courses db_minus_one)
  ∧ ∃ course' db',
      create db_minus_one course_sentinel_edited = Ok (course', db')
      ∧ id course' = 0
      ∧ filter (λ row, row_id row = -1) (Courses db') =
          [mkCoursesRow (-1) "Algebra" 5]
      ∧ filter (λ row, p_course_id row = -1) (Periods db') =
          [mkPeriodsRow (-1) 1].
Proof.
  split; [apply reachable_db_minus_one|].
  split; [vm_compute; right; left|].
  eexists _, _. split; [vm_compute; reflexivity|].
  repeat split.
Qed.

(** C4, amended.  When the id of the course is not -1 and is the id of a
    stored course, [create] replaces that course wholesale: the tables are
    those left by [delete] on that id, followed by one [Courses] row, the
    [Periods] rows of the timing set and the [Requirements] rows of the
    requirements set of the course; the rows stored under the id afterwards
    are exactly the new ones.  Stated for a course whose integers are 64-bit
    values: the driver raises OverflowError for any other. *)
Theorem create_replaces_existing db course :
  id course ≠ -1 → id course ∈ course_ids (Courses db) →
  storable course →
  ∃ db',
    create db course = Ok (course, db')
    ∧ Courses db' =
        Courses (delete db (id course))
          ++ [mkCoursesRow (id course) (name course) (credits course)]
    ∧ Periods db' =
        Periods (delete db (id course))
          ++ (mkPeriodsRow (id course) <$> elements (timing course))
    ∧ Requirements db' =
        Requirements (delete db (id course))
          ++ (mkRequirementsRow (id course) <$> elements (requirements course))
    ∧ filter (λ row, p_course_id row = id course) (Periods db') =
        mkPeriodsRow (id course) <$> elements (timing course)
    ∧ filter (λ row, r_course_id row = id course) (Requirements db') =
        mkRequirementsRow (id course) <$> elements (requirements course).
Proof.
  intros Hne Hin Hcourse.
  destruct (create_base_existing db course Hne Hin) as [Hid Hbase].
  eexists. split.
  { rewrite create_returns, Hid, Hbase, set_id_same by done. reflexivity. }
  repeat split.
  - apply stored_rows_periods, delete_unused.
  - apply stored_rows_requirements, delete_unused.
Qed.

Lemma create_replaces_existing_witness :
  ∃ db',
    create db_two_courses course_algebra_edited
      = Ok (course_algebra_edited, db')
    ∧ Courses db' =
        Courses (delete db_two_courses 1)
          ++ [mkCoursesRow 1 "Linear algebra" 5]
    ∧ Periods db' =
        Periods (delete db_two_courses 1)
          ++ (mkPeriodsRow 1 <$> elements (timing course_algebra_edited))
    ∧ Requirements db' =
        Requirements (delete db_two_courses 1)
          ++ (mkRequirementsRow 1
                <$> elements (requirements course_algebra_edited))
    ∧ filter (λ row, p_course_id row = 1) (Periods db') =
        mkPeriodsRow 1 <$> elements (timing course_algebra_edited)
    ∧ filter (λ row, r_course_id row = 1) (Requirements db') =
        mkRequirementsRow 1 <$> elements (requirements course_algebra_edited).
Proof.
  apply (create_replaces_existing db_two_courses course_algebra_edited).
  - simpl. lia.
  - vm_compute. left.
  - apply storable_course_algebra_edited.
Defined.

(** ** The rows of a saved course *)

(** C6.  In every state the repository can be in, for a course whose
    integers are 64-bit values (and, when it has no id yet, while the largest
    row id is not in use), [create] returns, and afterwards the rows stored
    under the id of the returned course are one [Courses] row with the name
    and credits of the course, one [Periods] row for each period of its
    timing set and one [Requirements] row for each id of its requirements
    set, no row twice. *)
Theorem create_stores_one_row_each db course :
  reachable db → storable course →
  (id course = -1 → max_rowid ∉ course_ids (Courses db)) →
  ∃ course' db',
    create db course = Ok (course', db')
    ∧ filter (λ row, row_id row = id course') (Courses db') =
        [mkCoursesRow (id course') (name course) (credits course)]
    ∧ filter (λ row, p_course_id row = id course') (Periods db') =
        mkPeriodsRow (id course') <$> elements (timing course)
    ∧ filter (λ row, r_course_id row = id course') (Requirements db') =
        mkRequirementsRow (id course') <$> elements (requirements course)
    ∧ NoDup (mkPeriodsRow (id course') <$> elements (timing course))
    ∧ NoDup (mkRequirementsRow (id course') <$> elements (requirements course)).
Proof.
  intros Hreach Hcourse Hrow.
  pose proof (reachable_consistent db Hreach) as Hdb.
  pose proof (create_base_unused db course Hdb) as Hbase.
  eexists _, _. split.
  { apply create_returns; [done|]. intros Hnew.
    by apply reachable_rowid_available, Hrow. }
  simpl id.
  split; [by apply stored_rows_courses|].
  split; [by apply stored_rows_periods|].
  split; [by apply stored_rows_requirements|].
  split.
  - apply NoDup_fmap_2_strong; [|apply NoDup_elements].
    by intros p q _ _ [=].
  - apply NoDup_fmap_2_strong; [|apply NoDup_elements].
    by intros p q _ _ [=].
Qed.

Lemma create_stores_one_row_each_witness :
  ∃ course' db',
    create db_two_courses course_seven = Ok (course', db')
    ∧ filter (λ row, row_id row = id course') (Courses db') =
        [mkCoursesRow (id course') "Geometry" 5]
    ∧ filter (λ row, p_course_id row = id course') (Periods db') =
        mkPeriodsRow (id course') <$> elements (timing course_seven)
    ∧ filter (λ row, r_course_id row = id course') (Requirements db') =
        mkRequirementsRow (id course')
          <$> elements (requirements course_seven)
    ∧ NoDup (mkPeriodsRow (id course') <$> elements (timing course_seven))
    ∧ NoDup (mkRequirementsRow (id course')
               <$> elements (requirements course_seven)).
Proof.
  apply (create_stores_one_row_each db_two_courses course_seven).
  - apply reachable_db_two_courses.
  - apply storable_course_seven.
  - simpl. lia.
Defined.

(** ** Saving under an explicit id *)

(** C10.  For a course whose id is not -1 and is the id of no stored
    course, [create] returns the course unchanged and appends a [Courses] row
    with exactly that id (with the rows of its periods and requirements); no
    other row changes.  Stated for a course whose integers are 64-bit values:
    the driver raises OverflowError for any other. *)
Theorem create_absent_id_inserts db course :
  id course ≠ -1 → id course ∉ course_ids (Courses db) →
  storable course →
  ∃ db',
    create db course = Ok (course, db')
    ∧ Courses db' =
        Courses db ++ [mkCoursesRow (id course) (name course) (credits course)]
    ∧ Periods db' =
        Periods db ++ (mkPeriodsRow (id course) <$> elements (timing course))
    ∧ Requirements db' =
        Requirements db
          ++ (mkRequirementsRow (id course) <$> elements (requirements course)).
Proof.
  intros Hne Hin Hcourse.
  destruct (create_base_absent db course Hne Hin) as [Hid Hbase].
  eexists. split.
  { rewrite create_returns, Hid, Hbase, set_id_same by done. reflexivity. }
  done.
Qed.

Lemma create_absent_id_inserts_witness :
  ∃ db',
    create db_two_courses course_seven = Ok (course_seven, db')
    ∧ Courses db' = Courses db_two_courses ++ [mkCoursesRow 7 "Geometry" 5]
    ∧ Periods db' =
        Periods db_two_courses
          ++ (mkPeriodsRow 7 <$> elements (timing course_seven))
    ∧ Requirements db' =
        Requirements db_two_courses
          ++ (mkRequirementsRow 7 <$> elements (requirements course_seven)).
Proof.
  apply (create_absent_id_inserts db_two_courses course_seven).
  - simpl. lia.
  - vm_compute. intros Hin.
    repeat (apply elem_of_cons in Hin as [Hin|Hin]; [lia|]).
    by apply elem_of_nil in Hin.
  - apply storable_course_seven.
Defined.

(** ** What an update leaves alone *)

(** Rows of other courses that do not name the saved course as a
    prerequisite are kept by [create]. *)
Lemma create_keeps_unrelated_rows db course course' db' j :
  create db course = Ok (course', db') → j ≠ id course' →
  filter (λ row, row_id row = j) (Courses db') =
    filter (λ row, row_id row = j) (Courses db)
  ∧ filter (λ row, p_course_id row = j) (Periods db') =
      filter (λ row, p_course_id row = j) (Periods db)
  ∧ filter (λ row, r_course_id row = j ∧ requirement_id row ≠ id course')
           (Requirements db') =
      filter (λ row, r_course_id row = j ∧ requirement_id row ≠ id course')
             (Requirements db).
Proof.
  intros (-> & -> & _)%create_Ok_inv. simpl. intros Hj.
  rewrite !filter_app.
  rewrite (filter_none _ [_]), (filter_none _ (mkPeriodsRow _ <$> _)),
    (filter_none _ (mkRequirementsRow _ <$> _)), !app_nil_r.
  - destruct (create_base_cases db course) as [->| ->]; [done|]. simpl.
    rewrite !list_filter_filter_l; [done|simpl; intros; lia..].
  - apply Forall_fmap, Forall_forall. simpl. intros r _ [Heq _].
    by apply Hj.
  - apply Forall_fmap, Forall_forall. simpl. intros p _ Heq. by apply Hj.
  - apply Forall_singleton. simpl. intros Heq. by apply Hj.
Qed.

(** C3.  Updating a stored course does not leave the rows of every other
    course unchanged: Analysis (id 2) requires Algebra (id 1), and saving an
    edit of Algebra with [create] removes the [Requirements] row (2, 1) that
    belongs to Analysis, so Analysis is reloaded without its prerequisite. *)
Theorem create_update_drops_incoming_requirement :
  reachable db_two_courses
  ∧ id course_algebra_edited ∈ course_ids (Courses db_two_courses)
  ∧ find_by_id db_two_courses 2 = Some (mkCourse "Analysis" 10 {[2]} {[1]} 2)
  ∧ ∃ db',
      create db_two_courses course_algebra_edited
        = Ok (course_algebra_edited, db')
      ∧ filter (λ row, r_course_id row = 2) (Requirements db_two_courses)
          = [mkRequirementsRow 2 1]
      ∧ filter (λ row, r_course_id row = 2) (Requirements db') = []
      ∧ find_by_id db' 2 = Some (mkCourse "Analysis" 10 {[2]} ∅ 2).
Proof.
  split; [apply reachable_db_two_courses|].
  split; [vm_compute; left|].
  split; [vm_compute; reflexivity|].
  eexists. split; [vm_compute; reflexivity|].
  repeat split; vm_compute; reflexivity.
Qed.

(** ** Saving a course that has no id yet *)

(** C5, as stated, fails: when the largest stored id is -2 the row id the
    database gives to the new row is -1, and [create] returns the course with
    id -1. *)
Lemma create_unsaved_returns_sentinel :
  reachable db_minus_two
  ∧ id course_algebra = -1
  ∧ ∃ course' db',
      create db_minus_two course_algebra = Ok (course', db')
      ∧ id course' = -1
      ∧ Courses db' = [mkCoursesRow (-2) "Logic" 5; mkCoursesRow (-1) "Algebra" 5].
Proof.
  split; [apply reachable_db_minus_two|].
  split; [reflexivity|].
  eexists _, _. split; [vm_compute; reflexivity|].
  split; reflexivity.
Qed.

(** C5, amended.  For a course with id -1, [create] appends a new
    [Courses] row and returns the course with the row id the database gave to
    that row, an id no stored course had; that id is -1 exactly when the
    largest stored id is -2.  Stated for a course whose integers are 64-bit
    values and for tables whose largest row id is not in use, where the row
    id given is one more than the largest stored id (1 in an empty table). *)
Theorem create_unsaved_assigns_rowid db course :
  id course = -1 → storable course → rowid_available db →
  ∃ course' db',
    create db course = Ok (course', db')
    ∧ new_rowid (Courses db) = Some (id course')
    ∧ Courses db' =
        Courses db
          ++ [mkCoursesRow (id course') (name course) (credits course)]
    ∧ (id course' ∉ course_ids (Courses db))
    ∧ (id course' = -1 ↔ largest_id db (-2)).
Proof.
  intros Hnew Hcourse Hrow.
  destruct (create_base_unsaved db course Hnew) as [Hid Hbase].
  eexists _, _. split; [by apply create_returns|].
  rewrite Hid, Hbase. simpl.
  split; [by apply new_rowid_available|]. split; [done|].
  split; [apply next_rowid_fresh|apply next_rowid_sentinel].
Qed.

Lemma create_unsaved_assigns_rowid_witness :
  ∃ course' db',
    create db_two_courses course_algebra = Ok (course', db')
    ∧ new_rowid (Courses db_two_courses) = Some (id course')
    ∧ Courses db' =
        Courses db_two_courses ++ [mkCoursesRow (id course') "Algebra" 5]
    ∧ (id course' ∉ course_ids (Courses db_two_courses))
    ∧ (id course' = -1 ↔ largest_id db_two_courses (-2)).
Proof.
  apply (create_unsaved_assigns_rowid db_two_courses course_algebra).
  - reflexivity.
  - apply storable_course_algebra.
  - apply rowid_available_db_two_courses.
Defined.

(** ** Prerequisites that are not stored *)

(** C7.  There is a course whose requirements set contains an id that is
    the id of no [Courses] row and that no [Requirements] row names, for
    which [create] returns without error and stores the [Requirements] row of
    that id: afterwards that row is the one row naming the id, and still no
    [Courses] row has it.  No foreign key is enforced. *)
Theorem create_stores_dangling_requirement :
  ∃ db course r,
    reachable db
    ∧ r ∈ requirements course
    ∧ (r ∉ course_ids (Courses db))
    ∧ filter (λ row, requirement_id row = r) (Requirements db) = []
    ∧ ∃ course' db',
        create db course = Ok (course', db')
        ∧ (r ∉ course_ids (Courses db'))
        ∧ filter (λ row, requirement_id row = r) (Requirements db')
          = [mkRequirementsRow (id course') r].
Proof.
  exists db_two_courses, course_dangling, 42.
  split; [apply reachable_db_two_courses|].
  split; [simpl; by apply elem_of_singleton|].
  split; [simpl; rewrite !elem_of_cons, elem_of_nil; lia|].
  split; [vm_compute; reflexivity|].
  eexists _, _. split; [vm_compute; reflexivity|].
  split.
  - simpl. rewrite !elem_of_cons, elem_of_nil. lia.
  - vm_compute. reflexivity.
Qed.

(** ** Listing the courses *)

Lemma find_by_id_id db i course : find_by_id db i = Some course → id course = i.
Proof.
  unfold find_by_id. destruct (select_course db i); [|done].
  by intros [= <-].
Qed.

Lemma find_by_id_stored db (ids : list Z) :
  Forall (λ i, i ∈ course_ids (Courses db)) ids →
  ∃ courses : list Course,
    find_by_id db <$> ids = Some <$> courses
    ∧ id <$> courses = ids
    ∧ Forall (λ course, find_by_id db (id course) = Some course) courses.
Proof.
  induction 1 as [|i ids Hi _ (courses & Hfind & Hids & Hall)].
  - by exists [].
  - destruct (find_by_id_Some db i Hi) as [course Hcourse].
    pose proof (find_by_id_id db i course Hcourse) as Hid.
    exists (course :: courses).
    rewrite !fmap_cons, Hcourse, Hfind, Hids, Hid.
    repeat split. apply Forall_cons. by rewrite Hid.
Qed.

(** C8.  [find_all] returns courses only (no [None]), in ascending order of
    id, one for each row of [Courses], and each is what [find_by_id] returns
    on its id. *)
Theorem find_all_sorted_complete db :
  ∃ courses : list Course,
    find_all db = Some <$> courses
    ∧ Sorted Z.le (id <$> courses)
    ∧ id <$> courses ≡ₚ course_ids (Courses db)
    ∧ length courses = length (Courses db)
    ∧ Forall (λ course, find_by_id db (id course) = Some course) courses.
Proof.
  unfold find_all, select_ids_ordered.
  pose proof (merge_sort_Permutation Z.le (course_ids (Courses db))) as Hperm.
  destruct (find_by_id_stored db (merge_sort Z.le (course_ids (Courses db))))
    as (courses & Hfind & Hids & Hall).
  { apply Forall_forall. intros i Hi. by rewrite <- Hperm. }
  exists courses. split; [done|]. rewrite Hids.
  split; [apply (Sorted_merge_sort Z.le)|].
  split; [done|]. split; [|done].
  rewrite <- (length_fmap id courses), Hids, Hperm.
  apply length_fmap.
Qed.

(** ** Deleting twice *)

Lemma filter_complement_all {A} (P : A → Prop) `{!∀ x, Decision (P x)}
    (l : list A) :
  filter P l = [] → filter (λ x, ¬ P x) l = l.
Proof.
  intros Hnil. apply (filter_every (λ x, ¬ P x)).
  by apply (filter_none_inv P).
Qed.

Lemma delete_unmatched_id db i : unmatched db i → delete db i = db.
Proof.
  intros (Hc & Hp & Hr). destruct db as [courses periods reqs].
  unfold delete. simpl in *. f_equal.
  - by apply (filter_complement_all (λ row, row_id row = i)).
  - by apply (filter_complement_all (λ row, p_course_id row = i)).
  - by apply (filter_complement_all
                (λ row, r_course_id row = i ∨ requirement_id row = i)).
Qed.

(** C9.  Called with a 64-bit id, [delete] raises no error; on an id that
    no row of the three tables matches it leaves the tables unchanged, so
    deleting an id twice gives the same tables as deleting it once. *)
Theorem delete_idempotent db i :
  int64 i →
  delete_call db i = Ok (delete db i)
  ∧ (unmatched db i → delete_call db i = Ok db)
  ∧ (db' ← delete_call db i; delete_call db' i) = delete_call db i.
Proof.
  intros Hi. rewrite !delete_call_Ok by done. split; [done|]. split.
  - intros Hfree. by rewrite delete_unmatched_id.
  - cbn [mbind result_bind]. rewrite delete_call_Ok by done. f_equal.
    apply delete_unmatched_id, delete_unmatched.
Qed.

Lemma delete_idempotent_witness :
  unmatched db_two_courses 7
  ∧ delete_call db_two_courses 7 = Ok db_two_courses
  ∧ (db' ← delete_call db_two_courses 1; delete_call db' 1)
    = delete_call db_two_courses 1.
Proof.
  assert (unmatched db_two_courses 7) as Hfree
    by (repeat split; vm_compute; reflexivity).
  assert (int64 7) as H7 by (unfold int64; lia).
  assert (int64 1) as H1 by (unfold int64; lia).
  split; [exact Hfree|]. split.
  - exact (proj1 (proj2 (delete_idempotent db_two_courses 7 H7)) Hfree).
  - exact (proj2 (proj2 (delete_idempotent db_two_courses 1 H1))).
Defined.

(** ** Reloading the other courses *)

Lemma select_course_delete db i j :
  j ≠ i → select_course (delete db i) j = select_course db j.
Proof.
  intros Hne. unfold select_course. simpl.
  rewrite list_filter_filter_l; [done|]. simpl. intros row -> . done.
Qed.

Lemma find_timing_delete db i j :
  j ≠ i → find_timing (delete db i) j = find_timing db j.
Proof.
  intros Hne. unfold find_timing, select_periods. simpl.
  rewrite list_filter_filter_l; [done|]. simpl. intros row -> . done.
Qed.

Lemma find_requirements_delete db i j :
  j ≠ i →
  find_requirements (delete db i) j = find_requirements db j ∖ {[i]}.
Proof.
  intros Hne. unfold find_requirements, select_requirements. simpl.
  apply set_eq. intros r.
  rewrite elem_of_difference, !elem_of_list_to_set, !list_elem_of_fmap,
    not_elem_of_singleton.
  split.
  - intros (row & -> & [Hj [Hkeep Hrow]%list_elem_of_filter]%list_elem_of_filter).
    split; [|tauto]. exists row. split; [done|].
    by apply list_elem_of_filter.
  - intros [(row & -> & [Hj Hrow]%list_elem_of_filter) Hr].
    exists row. split; [done|].
    apply list_elem_of_filter. split; [done|].
    apply list_elem_of_filter. split; [|done]. lia.
Qed.

Lemma find_by_id_stored_rows_other b i course j :
  j ≠ i → find_by_id (stored_rows b i course) j = find_by_id b j.
Proof.
  intros Hne.
  unfold find_by_id, select_course, find_timing, find_requirements,
    select_periods, select_requirements. simpl.
  rewrite !filter_app.
  rewrite (filter_none _ [_]), (filter_none _ (mkPeriodsRow _ <$> _)),
    (filter_none _ (mkRequirementsRow _ <$> _)), !app_nil_r; [done|..].
  - apply Forall_fmap, Forall_forall. simpl. intros r _ Heq. by apply Hne.
  - apply Forall_fmap, Forall_forall. simpl. intros p _ Heq. by apply Hne.
  - apply Forall_singleton. simpl. intros Heq. by apply Hne.
Qed.

(** X1.  A call of [find_by_id] raises OverflowError exactly for an id
    that is not a 64-bit value; it returns [None] exactly for the 64-bit ids
    of no [Courses] row; a course it returns carries the id that was asked
    for and the name and credits of a stored row with that id. *)
Theorem find_by_id_missing_or_stored db i :
  (find_by_id_call db i = Raise OverflowError ↔ ¬ int64 i)
  ∧ (find_by_id_call db i = Ok None ↔
     int64 i ∧ i ∉ course_ids (Courses db))
  ∧ ∀ course,
      find_by_id_call db i = Ok (Some course) →
      id course = i
      ∧ mkCoursesRow i (name course) (credits course) ∈ Courses db.
Proof.
  unfold find_by_id_call, bind_parameters.
  destruct (decide (Forall int64 [i])) as [Hi|Hi];
    rewrite Forall_singleton in Hi; cbn [mbind result_bind].
  - split; [split; [done|tauto]|]. split.
    + rewrite <- find_by_id_None. split; [by intros [= ->]|by intros [_ ->]].
    + unfold find_by_id, select_course. intros course.
      destruct (filter _ (Courses db)) as [|row rows] eqn:Hrows; [done|].
      simpl. intros [= <-]. simpl. split; [done|].
      assert (row ∈ filter (λ row, row_id row = i) (Courses db)) as Hin
        by (rewrite Hrows; left).
      apply list_elem_of_filter in Hin as [<- Hin]. by destruct row.
  - split; [done|]. split; [|done]. split; [done|tauto].
Qed.

Lemma find_by_id_missing_or_stored_witness :
  find_by_id_call db_two_courses (2 ^ 63) = Raise OverflowError
  ∧ find_by_id_call db_two_courses 7 = Ok None
  ∧ id (mkCourse "Analysis" 10 {[2]} {[1]} 2) = 2
  ∧ mkCoursesRow 2 "Analysis" 10 ∈ Courses db_two_courses.
Proof.
  split.
  { apply (proj1 (find_by_id_missing_or_stored db_two_courses (2 ^ 63))).
    unfold int64. lia. }
  split.
  { apply (proj1 (proj2 (find_by_id_missing_or_stored db_two_courses 7))).
    split; [unfold int64; lia|].
    simpl. rewrite !elem_of_cons, elem_of_nil. lia. }
  apply (proj2 (proj2 (find_by_id_missing_or_stored db_two_courses 2))
           (mkCourse "Analysis" 10 {[2]} {[1]} 2)).
  vm_compute. reflexivity.
Defined.

(** X2.  [delete] changes the other courses in one way only: a course with
    another id reloads with the same name, credits and periods, and with the
    deleted id taken out of its prerequisites. *)
Theorem delete_other_courses db i j :
  j ≠ i →
  find_by_id (delete db i) j = without_requirement i <$> find_by_id db j.
Proof.
  intros Hne. unfold find_by_id.
  rewrite select_course_delete, find_timing_delete,
    find_requirements_delete by done.
  by destruct (select_course db j).
Qed.

Lemma delete_other_courses_witness :
  find_by_id (delete db_two_courses 1) 2
  = without_requirement 1 <$> find_by_id db_two_courses 2.
Proof. apply (delete_other_courses db_two_courses 1 2). lia. Defined.

(** X3.  [create] never raises IntegrityError: the primary key of [Courses]
    cannot be violated, whatever the tables hold and whatever id the course
    has; the only exception that leaves [create] is the OverflowError of the
    driver. *)
Theorem create_never_raises db course :
  create db course ≠ Raise IntegrityError.
Proof.
  by destruct (create_cases db course) as [(-> & _)|[(-> & _)|(-> & _)]].
Qed.

(** X16.  Unless the row id has to be picked at random, [create] raises
    OverflowError exactly when the id, the credits, a period or a
    prerequisite id of the course is not a 64-bit value; for every other
    course it returns. *)
Theorem create_overflow db course :
  (id course = -1 → rowid_available db) →
  (create db course = Raise OverflowError ↔ ¬ storable course)
  ∧ (storable course → ∃ course' db', create db course = Ok (course', db')).
Proof.
  intros Hrow. split; [split|].
  - intros Hraise Hcourse.
    by rewrite create_returns in Hraise.
  - intros Hcourse.
    destruct (create_cases db course)
      as [(_ & Hb%bound_storable & _)|[[-> _]|(_ & Hid & Hmax)]]; [done..|].
    destruct Hmax. eapply Forall_impl; [exact (Hrow Hid)|]. simpl. lia.
  - intros Hcourse. eexists _, _. by apply create_returns.
Qed.

Lemma create_overflow_witness :
  create empty_database course_huge_period = Raise OverflowError
  ∧ create db_two_courses course_huge_id = Raise OverflowError
  ∧ ∃ course' db', create db_two_courses course_seven = Ok (course', db').
Proof.
  split; [|split].
  - apply (proj1 (create_overflow empty_database course_huge_period
                    ltac:(by intros [=]))).
    intros (_ & _ & Ht & _).
    assert (int64 (2 ^ 63)) as Hp
      by (apply Ht; simpl; by apply elem_of_singleton).
    unfold int64 in Hp. lia.
  - apply (proj1 (create_overflow db_two_courses course_huge_id
                    ltac:(by intros [=]))).
    intros (Hid & _). unfold int64 in Hid. simpl in Hid. lia.
  - apply (proj2 (create_overflow db_two_courses course_seven
                    ltac:(by intros [=]))).
    apply storable_course_seven.
Defined.

(** X4.  Saving a course that is not stored yet (id -1, or an explicit id
    without a [Courses] row) leaves every other course as it was: any other
    id reloads to the same result as before. *)
Theorem create_new_keeps_other_courses db course course' db' j :
  id course = -1 ∨ id course ∉ course_ids (Courses db) →
  create db course = Ok (course', db') →
  j ≠ id course' →
  find_by_id db' j = find_by_id db j.
Proof.
  intros Hnew (-> & -> & _)%create_Ok_inv. simpl. intros Hj.
  rewrite find_by_id_stored_rows_other by done.
  destruct (decide (id course = -1)) as [Hid|Hid].
  - by destruct (create_base_unsaved db course Hid) as [_ ->].
  - destruct Hnew as [Hnew|Hnew]; [done|].
    by destruct (create_base_absent db course Hid Hnew) as [_ ->].
Qed.

Lemma create_new_keeps_other_courses_witness :
  ∃ course' db',
    create db_two_courses course_dangling = Ok (course', db')
    ∧ find_by_id db' 2 = find_by_id db_two_courses 2.
Proof.
  eexists _, _. split; [vm_compute; reflexivity|].
  eapply (create_new_keeps_other_courses db_two_courses course_dangling).
  - left. reflexivity.
  - vm_compute. reflexivity.
  - vm_compute. discriminate.
Defined.

(** X5.  Saving a stored course under its id changes the other courses in
    one way only: a course with another id reloads with the same name,
    credits and periods, and with the saved id taken out of its
    prerequisites. *)
Theorem create_update_other_courses db course db' j :
  id course ≠ -1 → id course ∈ course_ids (Courses db) →
  create db course = Ok (course, db') →
  j ≠ id course →
  find_by_id db' j = without_requirement (id course) <$> find_by_id db j.
Proof.
  intros Hne Hin (_ & -> & _)%create_Ok_inv Hj.
  destruct (create_base_existing db course Hne Hin) as [-> ->].
  rewrite find_by_id_stored_rows_other by done.
  destruct (find_by_id_Some db (id course) Hin) as [found Hfound].
  unfold find_by_id.
  rewrite select_course_delete, find_timing_delete,
    find_requirements_delete by done.
  by destruct (select_course db j).
Qed.

Lemma create_update_other_courses_witness :
  ∃ db',
    create db_two_courses course_algebra_edited
      = Ok (course_algebra_edited, db')
    ∧ find_by_id db' 2
      = without_requirement 1 <$> find_by_id db_two_courses 2.
Proof.
  eexists. split; [vm_compute; reflexivity|].
  apply (create_update_other_courses db_two_courses course_algebra_edited).
  - simpl. lia.
  - vm_compute. left.
  - vm_compute. reflexivity.
  - simpl. lia.
Defined.

(** ** Saving and deleting in sequence *)

Lemma delete_stored_rows b i course : delete (stored_rows b i course) i = delete b i.
Proof.
  unfold delete. simpl. rewrite !filter_app.
  rewrite (filter_none _ [_]), (filter_none _ (mkPeriodsRow _ <$> _)),
    (filter_none _ (mkRequirementsRow _ <$> _)), !app_nil_r; [done|..].
  - apply Forall_fmap, Forall_forall. simpl. tauto.
  - apply Forall_fmap, Forall_forall. simpl. tauto.
  - apply Forall_singleton. simpl. tauto.
Qed.

Lemma delete_twice db i : delete (delete db i) i = delete db i.
Proof. apply delete_unmatched_id, delete_unmatched. Qed.

Lemma delete_create_base db course :
  delete (create_base db course) (stored_id db course)
  = delete db (stored_id db course).
Proof.
  destruct (create_base_cases db course) as [->| ->]; [done|].
  apply delete_twice.
Qed.

(** X6.  Deleting a course right after saving it gives the tables that
    deleting its id without saving would have given: nothing [create] wrote
    survives [delete] on the returned id. *)
Theorem create_then_delete db course course' db' :
  create db course = Ok (course', db') →
  delete db' (id course') = delete db (id course').
Proof.
  intros (-> & -> & _)%create_Ok_inv. simpl.
  by rewrite delete_stored_rows, delete_create_base.
Qed.

Lemma create_then_delete_witness :
  ∃ course' db',
    create db_two_courses course_dangling = Ok (course', db')
    ∧ delete db' (id course') = delete db_two_courses (id course').
Proof.
  eexists _, _. split; [vm_compute; reflexivity|].
  apply (create_then_delete db_two_courses course_dangling).
  vm_compute. reflexivity.
Defined.

(** X7.  Saving a stored course a second time changes nothing: after an
    update, [create] on the same course returns it again and leaves the three
    tables exactly as the first update left them. *)
Theorem create_update_twice db course db1 :
  id course ≠ -1 → id course ∈ course_ids (Courses db) →
  create db course = Ok (course, db1) →
  create db1 course = Ok (course, db1).
Proof.
  intros Hne Hin (_ & -> & Hbound & _)%create_Ok_inv.
  destruct (create_base_existing db course Hne Hin) as [Hid ->].
  rewrite Hid.
  assert (id course
            ∈ course_ids (Courses (stored_rows (delete db (id course))
                                               (id course) course))) as Hin1.
  { simpl. rewrite course_ids_app. apply elem_of_app. right. by left. }
  destruct (create_base_existing _ course Hne Hin1) as [Hid1 Hbase1].
  rewrite create_bound_returns; [| |by intros ?].
  - by rewrite Hid1, Hbase1, delete_stored_rows, delete_twice, set_id_same.
  - unfold bound in *. rewrite Hid1. by rewrite Hid in Hbound.
Qed.

Lemma create_update_twice_witness :
  ∃ db1,
    create db_two_courses course_algebra_edited
      = Ok (course_algebra_edited, db1)
    ∧ create db1 course_algebra_edited = Ok (course_algebra_edited, db1).
Proof.
  eexists. split; [vm_compute; reflexivity|].
  apply (create_update_twice db_two_courses course_algebra_edited).
  - simpl. lia.
  - vm_compute. left.
  - vm_compute. reflexivity.
Defined.

(** ** The tables the repository can reach *)

(** X8.  Whatever sequence of [create], [delete] and [delete_all] the
    repository has run on the empty database, the ids of [Courses] are
    pairwise distinct and every row of [Periods] and of [Requirements] has
    the course_id of a [Courses] row. *)
Theorem reachable_rows_owned db :
  reachable db →
  NoDup (course_ids (Courses db))
  ∧ Forall (λ row, p_course_id row ∈ course_ids (Courses db)) (Periods db)
  ∧ Forall (λ row, r_course_id row ∈ course_ids (Courses db))
           (Requirements db).
Proof. by intros [Hids Hp Hr]%reachable_consistent. Qed.

Lemma reachable_rows_owned_witness :
  NoDup (course_ids (Courses db_two_courses))
  ∧ Forall (λ row, p_course_id row ∈ course_ids (Courses db_two_courses))
           (Periods db_two_courses)
  ∧ Forall (λ row, r_course_id row ∈ course_ids (Courses db_two_courses))
           (Requirements db_two_courses).
Proof.
  apply (reachable_rows_owned db_two_courses), reachable_db_two_courses.
Defined.

Lemma delete_each_rows db (ids : list Z) :
  delete_each db ids =
  mkDatabase
    (filter (λ row, row_id row ∉ ids) (Courses db))
    (filter (λ row, p_course_id row ∉ ids) (Periods db))
    (filter (λ row, (r_course_id row ∉ ids) ∧ (requirement_id row ∉ ids))
            (Requirements db)).
Proof.
  unfold delete_each. revert db.
  induction ids as [|i ids IH]; intros db; simpl.
  - destruct db as [courses periods reqs]. simpl. f_equal.
    + symmetry. apply filter_every, Forall_forall. intros row _.
      apply not_elem_of_nil.
    + symmetry. apply filter_every, Forall_forall. intros row _.
      apply not_elem_of_nil.
    + symmetry. apply filter_every, Forall_forall. intros row _.
      split; apply not_elem_of_nil.
  - rewrite IH. simpl. rewrite !list_filter_filter. f_equal.
    + apply list_filter_iff. intros row. rewrite not_elem_of_cons. tauto.
    + apply list_filter_iff. intros row. rewrite not_elem_of_cons. tauto.
    + apply list_filter_iff. intros row. rewrite !not_elem_of_cons. tauto.
Qed.

(** X9.  In every state the repository can be in, deleting the stored
    courses one by one empties all three tables, as [delete_all] does: no
    row is left behind without its course. *)
Theorem delete_each_is_delete_all db :
  reachable db →
  delete_each db (course_ids (Courses db)) = delete_all db.
Proof.
  intros [_ Hp Hr]%reachable_consistent.
  rewrite delete_each_rows. unfold delete_all. f_equal.
  - apply filter_none, Forall_forall. intros row Hrow Hnot.
    apply Hnot. by apply list_elem_of_fmap_2.
  - apply filter_none. eapply Forall_impl; [exact Hp|]. simpl. tauto.
  - apply filter_none. eapply Forall_impl; [exact Hr|]. simpl. tauto.
Qed.

Lemma delete_each_is_delete_all_witness :
  delete_each db_two_courses (course_ids (Courses db_two_courses))
  = delete_all db_two_courses.
Proof.
  apply (delete_each_is_delete_all db_two_courses), reachable_db_two_courses.
Defined.

(** ** Listing after a change *)

Lemma course_ids_filter rows i :
  course_ids (filter (λ row, row_id row ≠ i) rows)
  = filter (λ j, j ≠ i) (course_ids rows).
Proof.
  unfold course_ids. induction rows as [|row rows IH]; [done|].
  rewrite fmap_cons, !filter_cons. case_decide; [|done].
  by rewrite fmap_cons, IH.
Qed.

Lemma StronglySorted_filter_le (P : Z → Prop) `{!∀ j, Decision (P j)}
    (l : list Z) :
  StronglySorted Z.le l → StronglySorted Z.le (filter P l).
Proof.
  induction 1 as [|j l _ IH Hall]; [constructor|].
  rewrite filter_cons. case_decide; [|done].
  constructor; [done|].
  apply Forall_forall. intros k [_ Hk]%list_elem_of_filter.
  by apply (proj1 (Forall_forall _ _) Hall).
Qed.

Lemma merge_sort_filter (P : Z → Prop) `{!∀ j, Decision (P j)} (l : list Z) :
  merge_sort Z.le (filter P l) = filter P (merge_sort Z.le l).
Proof.
  apply (Sorted_unique Z.le).
  - apply (Sorted_merge_sort Z.le).
  - apply StronglySorted_Sorted, StronglySorted_filter_le.
    apply (StronglySorted_merge_sort Z.le).
  - by rewrite !merge_sort_Permutation.
Qed.

(** X10.  In every state the repository can be in, a course that [create]
    has returned is in the list [find_all] returns next. *)
Theorem create_listed db course course' db' :
  reachable db → create db course = Ok (course', db') →
  Some course' ∈ find_all db'.
Proof.
  intros Hdb%reachable_consistent (-> & -> & _)%create_Ok_inv.
  unfold find_all. apply list_elem_of_fmap.
  exists (stored_id db course). split.
  - symmetry. by apply stored_rows_find_by_id, create_base_unused.
  - unfold select_ids_ordered. rewrite merge_sort_Permutation. simpl.
    rewrite course_ids_app. apply elem_of_app. right. by left.
Qed.

Lemma create_listed_witness :
  ∃ course' db',
    create db_two_courses course_dangling = Ok (course', db')
    ∧ Some course' ∈ find_all db'.
Proof.
  eexists _, _. split; [vm_compute; reflexivity|].
  apply (create_listed db_two_courses course_dangling).
  - apply reachable_db_two_courses.
  - vm_compute. reflexivity.
Defined.

(** X11.  The list [find_all] returns after [delete] is the list of before
    without the deleted course: the other ids in ascending order, each course
    as it reloaded before, with the deleted id taken out of its
    prerequisites. *)
Theorem find_all_delete db i :
  find_all (delete db i) =
  (λ j, without_requirement i <$> find_by_id db j)
    <$> filter (λ j, j ≠ i) (select_ids_ordered db).
Proof.
  unfold find_all, select_ids_ordered. simpl.
  rewrite course_ids_filter, merge_sort_filter.
  apply Forall_fmap_ext, Forall_forall.
  intros j [Hj _]%list_elem_of_filter.
  unfold find_by_id.
  rewrite select_course_delete, find_timing_delete,
    find_requirements_delete by done.
  by destruct (select_course db j).
Qed.

(** X12.  In every state the repository can be in, [find_all] lists no
    course twice: the entries are courses with pairwise distinct ids. *)
Theorem find_all_distinct_ids db :
  reachable db →
  ∃ courses : list Course,
    find_all db = Some <$> courses ∧ NoDup (id <$> courses).
Proof.
  intros [Hids _ _]%reachable_consistent.
  unfold find_all, select_ids_ordered.
  pose proof (merge_sort_Permutation Z.le (course_ids (Courses db))) as Hperm.
  destruct (find_by_id_stored db (merge_sort Z.le (course_ids (Courses db))))
    as (courses & Hfind & Hcourses & _).
  { apply Forall_forall. intros j Hj. by rewrite <- Hperm. }
  exists courses. split; [done|].
  by rewrite Hcourses, Hperm.
Qed.

Lemma find_all_distinct_ids_witness :
  ∃ courses : list Course,
    find_all db_two_courses = Some <$> courses ∧ NoDup (id <$> courses).
Proof.
  apply (find_all_distinct_ids db_two_courses), reachable_db_two_courses.
Defined.

(** ** Filling the course form *)

Lemma period_position (p : Z) :
  -3 ≤ p ≤ 4 →
  (p - 1) `mod` 4 = if decide (1 ≤ p) then p - 1 else p + 3.
Proof.
  intros Hp.
  assert (p = -3 ∨ p = -2 ∨ p = -1 ∨ p = 0 ∨ p = 1 ∨ p = 2 ∨ p = 3 ∨ p = 4)
    as Hcases by lia.
  destruct Hcases as [->|[->|[->|[->|[->|[->|[->| ->]]]]]]]; reflexivity.
Qed.

(** The check button a period in range switches on. *)
Lemma set_period_in_range (variables : list bool) (p : Z) :
  length variables = 4%nat → -3 ≤ p ≤ 4 →
  set_period variables p
  = Returns (<[Z.to_nat ((p - 1) `mod` 4) := true]> variables).
Proof.
  intros Hlen Hp. unfold set_period, list_index. rewrite Hlen.
  rewrite period_position by done.
  destruct (decide (0 ≤ p - 1 < Z.of_nat 4)) as [Hpos|Hneg].
  - by rewrite decide_True by lia.
  - rewrite decide_True by lia. rewrite (decide_False (P := 1 ≤ p)) by lia.
    do 3 f_equal. lia.
Qed.

Lemma set_period_out_of_range (variables : list bool) (p : Z) :
  length variables = 4%nat → p < -3 ∨ 4 < p →
  set_period variables p = IndexError.
Proof.
  intros Hlen Hp. unfold set_period, list_index. rewrite Hlen.
  by rewrite !decide_False by lia.
Qed.

Lemma set_period_length (variables variables' : list bool) (p : Z) :
  set_period variables p = Returns variables' →
  length variables' = length variables.
Proof.
  unfold set_period. destruct (list_index variables (p - 1)); [|done].
  intros [= <-]. apply length_insert.
Qed.

Lemma set_periods_in_range (periods : list Z) (variables : list bool) :
  length variables = 4%nat → Forall (λ p, -3 ≤ p ≤ 4) periods →
  ∃ variables',
    set_periods variables periods = Returns variables'
    ∧ length variables' = 4%nat
    ∧ ∀ k : nat,
        variables' !! k = Some true ↔
        variables !! k = Some true
        ∨ ∃ p, p ∈ periods ∧ Z.to_nat ((p - 1) `mod` 4) = k.
Proof.
  intros Hlen Hall. revert variables Hlen.
  induction Hall as [|p periods Hp _ IH]; intros variables Hlen; simpl.
  - exists variables. split; [done|]. split; [done|]. intros k. split.
    + by left.
    + intros [Hk|(p & Hp & _)]; [done|]. by apply elem_of_nil in Hp.
  - rewrite set_period_in_range by done.
    destruct (IH (<[Z.to_nat ((p - 1) `mod` 4) := true]> variables))
      as (variables' & -> & Hlen' & Hlookup).
    { by rewrite length_insert. }
    exists variables'. split; [done|]. split; [done|]. intros k. split.
    + intros [Hk|(q & Hq & Hk)]%Hlookup.
      * apply list_lookup_insert_Some in Hk as [(<- & _ & _)|[_ Hk]].
        -- right. exists p. split; [by left|done].
        -- by left.
      * right. exists q. split; [by right|done].
    + intros Hk. apply Hlookup.
      destruct Hk as [Hk|(q & [->|Hq]%elem_of_cons & Hk)].
      * left. apply list_lookup_insert_Some.
        destruct (decide (Z.to_nat ((p - 1) `mod` 4) = k)) as [<-|Hne].
        -- left. repeat split. apply lookup_lt_Some in Hk. done.
        -- by right.
      * left. apply list_lookup_insert_Some. left. repeat split; [done|].
        rewrite Hlen, <- Hk.
        pose proof (Z.mod_pos_bound (p - 1) 4). lia.
      * right. by exists q.
Qed.

Lemma set_periods_out_of_range (periods : list Z) (variables : list bool)
    (p : Z) :
  length variables = 4%nat → p ∈ periods → p < -3 ∨ 4 < p →
  set_periods variables periods = IndexError.
Proof.
  intros Hlen Hin Hp. revert variables Hlen.
  induction periods as [|q periods IH]; intros variables Hlen; simpl.
  - by apply elem_of_nil in Hin.
  - apply elem_of_cons in Hin as [<-|Hin].
    + by rewrite set_period_out_of_range.
    + destruct (set_period variables q) as [variables'|] eqn:Hq; [|done].
      apply IH; [done|]. apply set_period_length in Hq. congruence.
Qed.

Lemma bool_decide_of_iff (b : bool) (Q : Prop) `{!Decision Q} :
  (Some b = Some true ↔ Q) → b = bool_decide Q.
Proof.
  intros HQ. destruct b; symmetry.
  - by apply bool_decide_eq_true, HQ.
  - apply bool_decide_eq_false. intros [=]%HQ.
Qed.

(** Filling the form with a course whose periods all refer to a check
    button: period [p] switches on the button at position [(p - 1) mod 4]. *)
Lemma fill_course_data_in_range form course :
  length (timing_variables form) = 4%nat →
  set_Forall (λ p, -3 ≤ p ≤ 4) (timing course) →
  fill_course_data form (Some course) =
  Returns (mkCourseForm (name course) (credits course)
             [bool_decide (1 ∈ timing course ∨ -3 ∈ timing course);
              bool_decide (2 ∈ timing course ∨ -2 ∈ timing course);
              bool_decide (3 ∈ timing course ∨ -1 ∈ timing course);
              bool_decide (4 ∈ timing course ∨ 0 ∈ timing course)]).
Proof.
  intros Hlen Hrange. unfold fill_course_data. simpl.
  destruct (set_periods_in_range (elements (timing course))
              ((λ _, false) <$> timing_variables form))
    as (variables & -> & Hlen' & Hlookup).
  { by rewrite length_fmap. }
  { apply Forall_forall. intros p Hp%elem_of_elements. by apply Hrange. }
  assert (∀ k : nat,
    variables !! k = Some true ↔
    ∃ p, p ∈ timing course ∧ Z.to_nat ((p - 1) `mod` 4) = k) as Hshown.
  { intros k. rewrite Hlookup. split.
    - intros [Hk|(p & Hp%elem_of_elements & Hk)]; [|by exists p].
      rewrite list_lookup_fmap in Hk. by destruct (timing_variables form !! k).
    - intros (p & Hp & Hk). right. exists p. by rewrite elem_of_elements. }
  assert (∀ (k : nat) (q : Z),
    (∃ p, p ∈ timing course ∧ Z.to_nat ((p - 1) `mod` 4) = k) ↔
    ((Z.of_nat k < 4 ∧ Z.of_nat k + 1 ∈ timing course)
     ∨ (Z.of_nat k < 4 ∧ Z.of_nat k - 3 ∈ timing course))) as Hpos.
  { intros k _. split.
    - intros (p & Hp & Hk). pose proof (Hrange p Hp) as Hp'. simpl in Hp'.
      rewrite period_position in Hk by done.
      destruct (decide (1 ≤ p)).
      + left. replace (Z.of_nat k + 1) with p by lia. split; [lia|done].
      + right. replace (Z.of_nat k - 3) with p by lia. split; [lia|done].
    - intros [[Hk Hp]|[Hk Hp]].
      + exists (Z.of_nat k + 1). split; [done|].
        rewrite period_position by lia. rewrite decide_True by lia. lia.
      + exists (Z.of_nat k - 3). split; [done|].
        rewrite period_position by lia. rewrite decide_False by lia. lia. }
  destruct variables as [|b0 [|b1 [|b2 [|b3 [|b4 variables]]]]];
    simpl in Hlen'; try lia.
  do 2 f_equal.
  repeat f_equal; apply bool_decide_of_iff.
  - rewrite (Hshown 0%nat), (Hpos 0%nat 0). simpl. intuition lia.
  - rewrite (Hshown 1%nat), (Hpos 1%nat 0). simpl. intuition lia.
  - rewrite (Hshown 2%nat), (Hpos 2%nat 0). simpl. intuition lia.
  - rewrite (Hshown 3%nat), (Hpos 3%nat 0). simpl. intuition lia.
Qed.

(** X13.  Selecting a course whose periods are among 1 to 4 fills the form
    with its name and credits and switches on exactly the check buttons of
    its periods, whatever the form showed before. *)
Theorem fill_course_data_shows_course form course :
  length (timing_variables form) = 4%nat →
  set_Forall (λ p, 1 ≤ p ≤ 4) (timing course) →
  fill_course_data form (Some course) =
  Returns (mkCourseForm (name course) (credits course)
             [bool_decide (1 ∈ timing course);
              bool_decide (2 ∈ timing course);
              bool_decide (3 ∈ timing course);
              bool_decide (4 ∈ timing course)]).
Proof.
  intros Hlen Hrange. rewrite fill_course_data_in_range; [|done|].
  - do 2 f_equal.
    repeat f_equal; apply bool_decide_ext; split; try tauto;
      (intros [Hp|Hp]; [done|]); apply Hrange in Hp; simpl in Hp; lia.
  - intros p Hp. apply Hrange in Hp. simpl in *. lia.
Qed.

Lemma fill_course_data_shows_course_witness :
  fill_course_data new_form (Some course_algebra_edited) =
  Returns (mkCourseForm "Linear algebra" 5
             [bool_decide (1 ∈ timing course_algebra_edited);
              bool_decide (2 ∈ timing course_algebra_edited);
              bool_decide (3 ∈ timing course_algebra_edited);
              bool_decide (4 ∈ timing course_algebra_edited)]).
Proof.
  apply (fill_course_data_shows_course new_form course_algebra_edited).
  - reflexivity.
  - intros p Hp. simpl in Hp. apply elem_of_singleton in Hp. simpl. lia.
Defined.

(** X14.  A period from -3 to 0 does not fail: the index [period - 1] is
    negative and counts from the end of the list, so period [p] switches on
    the check button of period [p + 4]. *)
Theorem fill_course_data_wraps form course p :
  length (timing_variables form) = 4%nat →
  set_Forall (λ p, -3 ≤ p ≤ 4) (timing course) →
  p ∈ timing course → -3 ≤ p ≤ 0 →
  ∃ form',
    fill_course_data form (Some course) = Returns form'
    ∧ timing_variables form' !! Z.to_nat (p + 3) = Some true.
Proof.
  intros Hlen Hrange Hin Hp. eexists. split.
  { by apply fill_course_data_in_range. }
  assert (p = -3 ∨ p = -2 ∨ p = -1 ∨ p = 0) as Hcases by lia.
  destruct Hcases as [->|[->|[->| ->]]]; simpl; f_equal;
    apply bool_decide_eq_true; by right.
Qed.

Lemma fill_course_data_wraps_witness :
  ∃ form',
    fill_course_data new_form (Some course_period_zero) = Returns form'
    ∧ timing_variables form' !! Z.to_nat (0 + 3) = Some true.
Proof.
  apply (fill_course_data_wraps new_form course_period_zero 0).
  - reflexivity.
  - intros p Hp. simpl in Hp.
    apply elem_of_union in Hp as [Hp%elem_of_singleton|Hp%elem_of_singleton];
      simpl; lia.
  - simpl. apply elem_of_union. left. by apply elem_of_singleton.
  - lia.
Defined.

(** X15.  A course with a period below -3 or above 4 cannot be shown:
    filling the form ends in an IndexError, whatever its other periods
    are. *)
Theorem fill_course_data_index_error form course p :
  length (timing_variables form) = 4%nat →
  p ∈ timing course → p < -3 ∨ 4 < p →
  fill_course_data form (Some course) = IndexError.
Proof.
  intros Hlen Hin Hp. unfold fill_course_data. simpl.
  rewrite (set_periods_out_of_range _ _ p); [done| |by apply elem_of_elements|done].
  by rewrite length_fmap.
Qed.

Lemma fill_course_data_index_error_witness :
  fill_course_data new_form (Some course_period_five) = IndexError.
Proof.
  apply (fill_course_data_index_error new_form course_period_five 5).
  - reflexivity.
  - simpl. apply elem_of_union. right. by apply elem_of_singleton.
  - lia.
Defined.
